(** * HIIT timer: phase sequencing, countdown and controls

    A shallow embedding of the timer logic of [components/hiit] (the
    [HIITTimer] component and its helper functions) together with the types
    of [lib/hiit-types].

    Numbers are the integers that the form produces with [parseInt]; they
    are modelled by [Z].  React state holding [TimerState | null] is
    modelled by the non-null branch of every updater (each updater maps
    [null] to [null]). *)

From Stdlib Require Import ZArith Lia Bool List String Ascii DecimalString.
From Stdlib Require Import DecimalPos DecimalZ.
Import ListNotations.
Open Scope Z_scope.

(** ** Types (lib/hiit-types) *)

Record HIITConfig : Type := mkConfig {
  prep : Z;
  sets : Z;
  work : Z;
  rest : Z;
  cooldown : Z
}.

Inductive TimerPhase : Type := Prep | Work | Rest | Cooldown | Complete.

Record TimerState : Type := mkState {
  phase : TimerPhase;
  currentSet : Z;
  timeRemaining : Z;
  totalTime : Z;
  isPaused : bool;
  config : HIITConfig
}.

(** [Partial<HIITConfig>]: every field may be [undefined]. *)
Record PartialConfig : Type := mkPartial {
  prep_opt : option Z;
  sets_opt : option Z;
  work_opt : option Z;
  rest_opt : option Z;
  cooldown_opt : option Z
}.

Definition phase_eqb (a b : TimerPhase) : bool :=
  match a, b with
  | Prep, Prep | Work, Work | Rest, Rest
  | Cooldown, Cooldown | Complete, Complete => true
  | _, _ => false
  end.

(** ** Constants and strings *)

Definition MIN_TIME : Z := 1.
Definition MAX_TIME : Z := 3600.

(** Interpolation [${n}] of an integer in a template literal. *)
Definition show (n : Z) : string := NilZero.string_of_int (Z.to_int n).

(** [String.prototype.includes]. *)
Fixpoint includes (hay needle : string) : bool :=
  String.prefix needle hay ||
  match hay with
  | EmptyString => false
  | String _ tl => includes tl needle
  end.

(** ** validateConfig *)

(** [!x] for a field of type [number | undefined]: true when the field is
    absent or zero. *)
Definition falsy (x : option Z) : bool :=
  match x with
  | None => true
  | Some v => v =? 0
  end.

(** [x < k] and [x > k] under the guard [!x || ...], where [x] is present. *)
Definition lt_opt (x : option Z) (k : Z) : bool :=
  match x with Some v => v <? k | None => false end.
Definition gt_opt (x : option Z) (k : Z) : bool :=
  match x with Some v => v >? k | None => false end.

Definition between_msg (field lo : string) : string :=
  (field ++ " must be between " ++ lo ++ "s and " ++ show MAX_TIME
         ++ "s (60 minutes)")%string.

Definition validateConfig (c : PartialConfig) : option string :=
  if falsy (prep_opt c) || lt_opt (prep_opt c) MIN_TIME
     || gt_opt (prep_opt c) MAX_TIME
  then Some (between_msg "Prep" (show MIN_TIME))
  else if falsy (sets_opt c) || lt_opt (sets_opt c) 1
  then Some "Sets must be at least 1"%string
  else if falsy (work_opt c) || lt_opt (work_opt c) MIN_TIME
          || gt_opt (work_opt c) MAX_TIME
  then Some (between_msg "Work" (show MIN_TIME))
  else if falsy (rest_opt c) || lt_opt (rest_opt c) MIN_TIME
          || gt_opt (rest_opt c) MAX_TIME
  then Some (between_msg "Rest" (show MIN_TIME))
  else match cooldown_opt c with
       | Some v =>
           if (v <? 0) || (v >? MAX_TIME)
           then Some (between_msg "Cooldown" "0")
           else None
       | None => None
       end.

(** ** Timer state *)

Definition initializeTimerState (c : HIITConfig) (autoStart : bool)
  : TimerState :=
  {| phase := Prep;
     currentSet := 1;
     timeRemaining := prep c;
     totalTime := prep c;
     isPaused := negb autoStart;
     config := c |}.

Definition getNextPhase (state : TimerState) : TimerPhase :=
  match phase state with
  | Prep => Work
  | Work =>
      if currentSet state <? sets (config state) then Rest
      else if cooldown (config state) >? 0 then Cooldown
      else Complete
  | Rest => Work
  | Cooldown => Complete
  | Complete => phase state
  end.

Definition getPhaseDuration (p : TimerPhase) (state : TimerState) : Z :=
  match p with
  | Prep => prep (config state)
  | Work => work (config state)
  | Rest => rest (config state)
  | Cooldown => cooldown (config state)
  | Complete => 0
  end.

(** The updater passed to [setTimerState] by the interval callback. *)
Definition tick_update (prev : TimerState) : TimerState :=
  if timeRemaining prev <=? 1 then
    let nextPhase := getNextPhase prev in
    if phase_eqb nextPhase Complete then
      {| phase := Complete;
         currentSet := currentSet prev;
         timeRemaining := 0;
         totalTime := totalTime prev;
         isPaused := true;
         config := config prev |}
    else if phase_eqb nextPhase Work && phase_eqb (phase prev) Rest then
      {| phase := Work;
         currentSet := currentSet prev + 1;
         timeRemaining := work (config prev);
         totalTime := work (config prev);
         isPaused := isPaused prev;
         config := config prev |}
    else
      let duration := getPhaseDuration nextPhase prev in
      {| phase := nextPhase;
         currentSet := currentSet prev;
         timeRemaining := duration;
         totalTime := duration;
         isPaused := isPaused prev;
         config := config prev |}
  else
    {| phase := phase prev;
       currentSet := currentSet prev;
       timeRemaining := timeRemaining prev - 1;
       totalTime := totalTime prev;
       isPaused := isPaused prev;
       config := config prev |}.

(** The interval effect keeps an interval only while the timer is neither
    paused nor complete; otherwise it clears the interval and returns. *)
Definition interval_cleared (s : TimerState) : bool :=
  isPaused s || phase_eqb (phase s) Complete.

(** One period of the interval: the updater runs when an interval exists,
    and nothing happens when the effect has cleared it. *)
Definition tick (s : TimerState) : TimerState :=
  if interval_cleared s then s else tick_update s.

Fixpoint ticks (n : nat) (s : TimerState) : TimerState :=
  match n with
  | O => s
  | S k => ticks k (tick s)
  end.

(** ** Controls *)

Definition handlePause (prev : TimerState) : TimerState :=
  {| phase := phase prev;
     currentSet := currentSet prev;
     timeRemaining := timeRemaining prev;
     totalTime := totalTime prev;
     isPaused := true;
     config := config prev |}.

Definition handlePlay (prev : TimerState) : TimerState :=
  {| phase := phase prev;
     currentSet := currentSet prev;
     timeRemaining := timeRemaining prev;
     totalTime := totalTime prev;
     isPaused := false;
     config := config prev |}.

Definition handleRestart (timerState : TimerState) : TimerState :=
  let fullConfig :=
    {| prep := prep (config timerState);
       sets := sets (config timerState);
       work := work (config timerState);
       rest := rest (config timerState);
       cooldown := cooldown (config timerState) |} in
  initializeTimerState fullConfig true.

Definition handleSkipSet (prev : TimerState) : TimerState :=
  let nextPhase := getNextPhase prev in
  if phase_eqb nextPhase Complete then
    {| phase := Complete;
       currentSet := currentSet prev;
       timeRemaining := 0;
       totalTime := totalTime prev;
       isPaused := true;
       config := config prev |}
  else
    let duration := getPhaseDuration nextPhase prev in
    let newSet :=
      if phase_eqb nextPhase Work && phase_eqb (phase prev) Rest
      then currentSet prev + 1 else currentSet prev in
    {| phase := nextPhase;
       currentSet := newSet;
       timeRemaining := duration;
       totalTime := duration;
       isPaused := isPaused prev;
       config := config prev |}.

(** ** handleStart *)

(** [x!]: the assertion is erased; the value is read on the path where
    [validateConfig] has already found the field present. *)
Definition non_null (x : option Z) : Z :=
  match x with Some v => v | None => 0 end.

(** [x || 0]. *)
Definition or_zero (x : option Z) : Z :=
  match x with Some v => v | None => 0 end.

Definition fullConfig_of (c : PartialConfig) : HIITConfig :=
  {| prep := non_null (prep_opt c);
     sets := non_null (sets_opt c);
     work := non_null (work_opt c);
     rest := non_null (rest_opt c);
     cooldown := or_zero (cooldown_opt c) |}.

(** The outcome of [handleStart]: the error that is displayed, or the timer
    state that is installed. *)
Definition handleStart (c : PartialConfig) : string + TimerState :=
  match validateConfig c with
  | Some validationError => inl validationError
  | None => inr (initializeTimerState (fullConfig_of c) true)
  end.


(** ** Sequences of operations *)

Inductive Op : Type := OTick | OPause | OResume | OSkip | ORestart.

Definition apply_op (o : Op) (s : TimerState) : TimerState :=
  match o with
  | OTick => tick s
  | OPause => handlePause s
  | OResume => handlePlay s
  | OSkip => handleSkipSet s
  | ORestart => handleRestart s
  end.

Fixpoint run (ops : list Op) (s : TimerState) : TimerState :=
  match ops with
  | [] => s
  | o :: tl => run tl (apply_op o s)
  end.

(** The control bar is rendered only while the phase is not [Complete]
    ([isActive]); a sequence of operations respects this for the play button
    when it never resumes a completed timer. *)
Fixpoint play_only_when_active (ops : list Op) (s : TimerState) : bool :=
  match ops with
  | [] => true
  | o :: tl =>
      match o with
      | OResume => negb (phase_eqb (phase s) Complete)
      | _ => true
      end && play_only_when_active tl (apply_op o s)
  end.

(** ** Valid configurations and the length of a workout *)

(** The bounds that [validateConfig] enforces, on a full configuration. *)
Record ValidConfig (c : HIITConfig) : Prop := {
  valid_prep : MIN_TIME <= prep c <= MAX_TIME;
  valid_sets : 1 <= sets c;
  valid_work : MIN_TIME <= work c <= MAX_TIME;
  valid_rest : MIN_TIME <= rest c <= MAX_TIME;
  valid_cooldown : 0 <= cooldown c <= MAX_TIME
}.

Definition partial_of (c : HIITConfig) : PartialConfig :=
  {| prep_opt := Some (prep c);
     sets_opt := Some (sets c);
     work_opt := Some (work c);
     rest_opt := Some (rest c);
     cooldown_opt := Some (cooldown c) |}.

Definition total_ticks (c : HIITConfig) : Z :=
  prep c + sets c * work c + (sets c - 1) * rest c + cooldown c.

(** Ticks left before completion, read off a running state. *)
Definition remaining (s : TimerState) : Z :=
  let c := config s in
  let left := sets c - currentSet s in
  match phase s with
  | Prep => timeRemaining s + (left + 1) * work c + left * rest c + cooldown c
  | Work => timeRemaining s + left * (rest c + work c) + cooldown c
  | Rest => timeRemaining s + left * work c + (left - 1) * rest c + cooldown c
  | Cooldown => timeRemaining s
  | Complete => 0
  end.

(** What holds of every state of an unpaused run of configuration [c]. *)
Record Running (c : HIITConfig) (s : TimerState) : Prop := {
  run_config : config s = c;
  run_set_lo : 1 <= currentSet s;
  run_set_hi : currentSet s <= sets c;
  run_rest : phase s = Rest -> currentSet s < sets c;
  run_last : phase s = Cooldown \/ phase s = Complete -> currentSet s = sets c;
  run_live : phase s <> Complete -> isPaused s = false /\ 1 <= timeRemaining s
}.

(** What holds of every state reachable by any operations. *)
Record SetInRange (c : HIITConfig) (s : TimerState) : Prop := {
  range_config : config s = c;
  range_lo : 1 <= currentSet s;
  range_hi : currentSet s <= sets c;
  range_rest : phase s = Rest -> currentSet s < sets c
}.

(** Number of ticks, among the first [n] from [s], that change
    [currentSet]. *)
Fixpoint set_changes (n : nat) (s : TimerState) : nat :=
  match n with
  | O => O
  | S k =>
      let changed := negb (currentSet (tick s) =? currentSet s) in
      ((if changed then 1 else 0) + set_changes k (tick s))%nat
  end.

(** ** The validation order as the specification words it *)

Inductive Field : Type := FPrep | FSets | FWork | FRest | FCooldown.

Definition field_name (f : Field) : string :=
  match f with
  | FPrep => "Prep"
  | FSets => "Sets"
  | FWork => "Work"
  | FRest => "Rest"
  | FCooldown => "Cooldown"
  end.

Definition field_eqb (f g : Field) : bool :=
  match f, g with
  | FPrep, FPrep | FSets, FSets | FWork, FWork
  | FRest, FRest | FCooldown, FCooldown => true
  | _, _ => false
  end.

Definition all_fields : list Field := [FPrep; FSets; FWork; FRest; FCooldown].

(** "present and in bounds". *)
Definition present_within (lo hi : Z) (x : option Z) : bool :=
  match x with
  | Some v => (lo <=? v) && (v <=? hi)
  | None => false
  end.

(** "present and [>= 1]". *)
Definition present_at_least (lo : Z) (x : option Z) : bool :=
  match x with
  | Some v => lo <=? v
  | None => false
  end.

(** "(if present) in [[0, max]]". *)
Definition absent_or_within (lo hi : Z) (x : option Z) : bool :=
  match x with
  | Some v => (lo <=? v) && (v <=? hi)
  | None => true
  end.

(** The checks in the stated order: the first field that violates its
    bound, if any. *)
Definition spec_first_violation (c : PartialConfig) : option Field :=
  if negb (present_within 1 3600 (prep_opt c)) then Some FPrep
  else if negb (present_at_least 1 (sets_opt c)) then Some FSets
  else if negb (present_within 1 3600 (work_opt c)) then Some FWork
  else if negb (present_within 1 3600 (rest_opt c)) then Some FRest
  else if negb (absent_or_within 0 3600 (cooldown_opt c)) then Some FCooldown
  else None.

(** The error names exactly the field [f]. *)
Definition names_only (e : string) (f : Field) : bool :=
  forallb (fun g => Bool.eqb (includes e (field_name g)) (field_eqb g f))
          all_fields.

(** ** Statements about a worked scenario and about validation *)

Definition scenario_config : HIITConfig := mkConfig 10 2 20 10 0.

Definition scenario_start : TimerState :=
  initializeTimerState scenario_config true.

(** [n] is the first number of ticks after which the run from [s] is
    complete. *)
Definition completes_at (n : nat) (s : TimerState) : bool :=
  phase_eqb (phase (ticks n s)) Complete &&
  forallb (fun k => negb (phase_eqb (phase (ticks k s)) Complete)) (seq 0 n).

(** The outcome of [validateConfig] and [handleStart] on [c], given the
    first field that the ordered checks find out of bounds. *)
Definition validation_outcome (c : PartialConfig) : Prop :=
  match spec_first_violation c with
  | Some f =>
      exists e, validateConfig c = Some e /\ handleStart c = inl e /\
                names_only e f = true
  | None =>
      validateConfig c = None /\
      exists p n w r,
        prep_opt c = Some p /\ sets_opt c = Some n /\
        work_opt c = Some w /\ rest_opt c = Some r /\
        handleStart c
        = inr (initializeTimerState
                 (mkConfig p n w r
                    (match cooldown_opt c with
                     | Some v => v
                     | None => 0
                     end)) true)
  end.

(** ** Display helpers: formatTime and getPhaseInfo *)

(** The first [n] characters of [pad] repeated, [cur] being what is left of
    the current copy. *)
Fixpoint pad_fill (n : nat) (pad cur : string) : string :=
  match n with
  | O => EmptyString
  | S k =>
      match cur with
      | String a r => String a (pad_fill k pad r)
      | EmptyString =>
          match pad with
          | String a r => String a (pad_fill k pad r)
          | EmptyString => EmptyString
          end
      end
  end.

(** [String.prototype.padStart]. *)
Definition padStart (targetLength : nat) (padString s : string) : string :=
  if (targetLength <=? String.length s)%nat then s
  else (pad_fill (targetLength - String.length s) padString padString ++ s)
         %string.

(** [Math.floor(seconds / 60)] is the floor division of [Z]; [%] takes the
    sign of the dividend, as [Z.rem] does. *)
Definition formatTime (seconds : Z) : string :=
  let mins := seconds / 60 in
  let secs := Z.rem seconds 60 in
  if mins >? 0 then (show mins ++ ":" ++ padStart 2 "0" (show secs))%string
  else (show secs ++ "s")%string.

Record PhaseInfo : Type := mkPhaseInfo {
  label : string;
  nextLabel : option string;
  color : string
}.

Definition getPhaseInfo (p : TimerPhase) (currentSet totalSets : Z)
           (config : HIITConfig) : PhaseInfo :=
  match p with
  | Prep =>
      {| label := "Prep";
         nextLabel := Some ("Work (" ++ formatTime (work config) ++ "s)")%string;
         color := "oklch(0.70 0.15 162)" |}
  | Work =>
      {| label := "Work";
         nextLabel :=
           if currentSet <? totalSets
           then Some ("Rest (" ++ formatTime (rest config) ++ "s)")%string
           else if cooldown config >? 0
           then Some ("Cooldown (" ++ formatTime (cooldown config) ++ "s)")
                  %string
           else None;
         color := "oklch(0.704 0.191 22.216)" |}
  | Rest =>
      {| label := "Rest";
         nextLabel := Some ("Work (" ++ formatTime (work config) ++ "s)")%string;
         color := "oklch(0.85 0.13 165)" |}
  | Cooldown =>
      {| label := "Cooldown";
         nextLabel := None;
         color := "oklch(0.70 0.15 162)" |}
  | Complete =>
      {| label := "Complete!";
         nextLabel := None;
         color := "oklch(0.85 0.13 165)" |}
  end.

(** [phaseInfo] as the component computes it from the timer state. *)
Definition phaseInfo_of (s : TimerState) : PhaseInfo :=
  getPhaseInfo (phase s) (currentSet s) (sets (config s)) (config s).

(** A [:] occurs in the string. *)
Fixpoint has_colon (s : string) : bool :=
  match s with
  | EmptyString => false
  | String a r => Ascii.eqb a ":" || has_colon r
  end.

(** The seconds field of a formatted time, as [formatTime] writes it. *)
Definition seconds_field (secs : Z) : string := padStart 2 "0" (show secs).

(** ** The component: form, error and timer state *)

Record HIITTimer : Type := mkTimer {
  form : PartialConfig;
  error : option string;
  timerState : option TimerState
}.

(** The three [useState] initial values. *)
Definition initial_timer : HIITTimer :=
  {| form := mkPartial (Some 10) (Some 4) (Some 20) (Some 10) (Some 60);
     error := None;
     timerState := None |}.

Definition isActive (a : HIITTimer) : bool :=
  match timerState a with
  | Some s => negb (phase_eqb (phase s) Complete)
  | None => false
  end.

(** The [disabled] attribute of the start button. *)
Definition start_disabled (c : PartialConfig) : bool :=
  falsy (prep_opt c) || falsy (sets_opt c) || falsy (work_opt c)
  || falsy (rest_opt c).

(** [{ ...config, field: value }] in the [onChange] of an input, where
    [value] is the result of [parseInt] and [None] stands for [NaN]. *)
Definition set_field (f : Field) (value : option Z) (c : PartialConfig)
  : PartialConfig :=
  match f with
  | FPrep => mkPartial value (sets_opt c) (work_opt c) (rest_opt c)
               (cooldown_opt c)
  | FSets => mkPartial (prep_opt c) value (work_opt c) (rest_opt c)
               (cooldown_opt c)
  | FWork => mkPartial (prep_opt c) (sets_opt c) value (rest_opt c)
               (cooldown_opt c)
  | FRest => mkPartial (prep_opt c) (sets_opt c) (work_opt c) value
               (cooldown_opt c)
  | FCooldown => mkPartial (prep_opt c) (sets_opt c) (work_opt c) (rest_opt c)
                   value
  end.

(** [handlePreset("tabata")]. *)
Definition handlePreset (a : HIITTimer) : HIITTimer :=
  {| form := mkPartial (Some 10) (Some 8) (Some 20) (Some 10) (Some 60);
     error := None;
     timerState := timerState a |}.

(** [setTimerState((prev) => prev ? f(prev) : null)]. *)
Definition setTimerState (f : TimerState -> TimerState) (a : HIITTimer)
  : HIITTimer :=
  {| form := form a;
     error := error a;
     timerState := option_map f (timerState a) |}.

(** [handleStart] with its two [setError] and its [setTimerState]. *)
Definition handleStart_click (a : HIITTimer) : HIITTimer :=
  match handleStart (form a) with
  | inl validationError =>
      {| form := form a;
         error := Some validationError;
         timerState := timerState a |}
  | inr s =>
      {| form := form a; error := None; timerState := Some s |}
  end.

(** The middle button of the control bar: [isPaused ? onPlay : onPause]. *)
Definition playPause_click (s : TimerState) : TimerState :=
  if isPaused s then handlePlay s else handlePause s.

Inductive Event : Type :=
| ChangeInput (f : Field) (value : option Z)
| ClickPreset
| ClickStart
| ClickRestart
| ClickPlayPause
| ClickSkipSet
| ClickNewWorkout
| IntervalFires.

(** What an event does to the component.  The setup screen (inputs, preset
    and start button) is rendered when [isActive] is false, the timer screen
    (control bar) when it is true; "New Workout" sits in the timer screen
    under [phase === "complete"]; an event of an element that is not
    rendered, or of a disabled button, changes nothing. *)
Definition dispatch (e : Event) (a : HIITTimer) : HIITTimer :=
  match e with
  | ChangeInput f value =>
      if isActive a then a
      else {| form := set_field f value (form a);
              error := None;
              timerState := timerState a |}
  | ClickPreset => if isActive a then a else handlePreset a
  | ClickStart =>
      if isActive a || start_disabled (form a) then a
      else handleStart_click a
  | ClickRestart =>
      if isActive a then setTimerState handleRestart a else a
  | ClickPlayPause =>
      if isActive a then setTimerState playPause_click a else a
  | ClickSkipSet =>
      if isActive a then setTimerState handleSkipSet a else a
  | ClickNewWorkout =>
      if isActive a
         && match timerState a with
            | Some s => phase_eqb (phase s) Complete
            | None => false
            end
      then {| form := form a; error := error a; timerState := None |}
      else a
  | IntervalFires => setTimerState tick a
  end.

Fixpoint dispatch_all (es : list Event) (a : HIITTimer) : HIITTimer :=
  match es with
  | [] => a
  | e :: tl => dispatch_all tl (dispatch e a)
  end.

(** ** The operations as the component issues them *)

(** [isActive] for a timer state that exists: the timer screen, and with it
    the control bar, is rendered. *)
Definition controlBar_rendered (s : TimerState) : bool :=
  negb (phase_eqb (phase s) Complete).

(** A click on the play button.  The middle button of the control bar is
    the play button while [isPaused] is true; where there is no play button
    no resume is issued and the state stays as it is. *)
Definition resume (s : TimerState) : TimerState :=
  if controlBar_rendered s && isPaused s then handlePlay s else s.

(** A click on the pause button, which the middle button is while
    [isPaused] is false. *)
Definition pause (s : TimerState) : TimerState :=
  if controlBar_rendered s && negb (isPaused s) then handlePause s else s.

(** A click on the skip button of the rendered control bar. *)
Definition skip (s : TimerState) : TimerState :=
  if controlBar_rendered s then handleSkipSet s else s.

(** A click on the restart button of the rendered control bar. *)
Definition restart (s : TimerState) : TimerState :=
  if controlBar_rendered s then handleRestart s else s.

Definition issue (o : Op) (s : TimerState) : TimerState :=
  match o with
  | OTick => tick s
  | OPause => pause s
  | OResume => resume s
  | OSkip => skip s
  | ORestart => restart s
  end.

Fixpoint issue_all (ops : list Op) (s : TimerState) : TimerState :=
  match ops with
  | [] => s
  | o :: tl => issue_all tl (issue o s)
  end.

(** [{ ...s, timeRemaining: 1 }]: the state [s] brought to the end of its
    phase. *)
Definition at_boundary (s : TimerState) : TimerState :=
  {| phase := phase s;
     currentSet := currentSet s;
     timeRemaining := 1;
     totalTime := totalTime s;
     isPaused := isPaused s;
     config := config s |}.

(** ** Well-formed timer states *)

(** What the progress ring relies on. *)
Record TimeInRange (s : TimerState) : Prop := {
  time_lo : 0 <= timeRemaining s;
  time_hi : timeRemaining s <= totalTime s;
  total_pos : 1 <= totalTime s;
  time_live : phase s <> Complete -> 1 <= timeRemaining s
}.

Record WellFormed (s : TimerState) : Prop := {
  wf_config : ValidConfig (config s);
  wf_set : SetInRange (config s) s;
  wf_time : TimeInRange s;
  wf_done : phase s = Complete -> timeRemaining s = 0 /\ isPaused s = true
}.

(** The error shown is the verdict of [validateConfig] on the form as it
    stands, and the start button is enabled. *)
Definition error_current (a : HIITTimer) : Prop :=
  forall e, error a = Some e ->
            validateConfig (form a) = Some e /\
            start_disabled (form a) = false.

(** Every timer state that the component holds is well formed. *)
Definition timer_wellformed (a : HIITTimer) : Prop :=
  forall s, timerState a = Some s -> WellFormed s.

(** ** Skipping through a workout *)

Fixpoint skips (n : nat) (s : TimerState) : TimerState :=
  match n with
  | O => s
  | S k => skips k (handleSkipSet s)
  end.

(** Phases still to be left before completion. *)
Definition phases_left (s : TimerState) : Z :=
  let c := config s in
  let cd := if cooldown c >? 0 then 1 else 0 in
  match phase s with
  | Prep => 2 * (sets c - currentSet s) + 2 + cd
  | Work => 2 * (sets c - currentSet s) + 1 + cd
  | Rest => 2 * (sets c - currentSet s) + cd
  | Cooldown => 1
  | Complete => 0
  end.

Definition total_phases (c : HIITConfig) : Z :=
  2 * sets c + (if cooldown c >? 0 then 1 else 0).

(** * Properties *)

(** ** Basic facts about phases and record equality *)

Lemma phase_eqb_eq (a b : TimerPhase) : phase_eqb a b = true <-> a = b.
Proof. destruct a, b; simpl; split; congruence. Qed.

Lemma phase_eqb_neq (a b : TimerPhase) : phase_eqb a b = false <-> a <> b.
Proof. destruct a, b; simpl; split; congruence. Qed.

Lemma config_eta (c : HIITConfig) :
  mkConfig (prep c) (sets c) (work c) (rest c) (cooldown c) = c.
Proof. now destruct c. Qed.

(** Case analysis on the integer tests met in the goal. *)
Ltac split_tests :=
  repeat match goal with
    | |- context [?a <? ?b] => destruct (Z.ltb_spec a b)
    | |- context [?a <=? ?b] => destruct (Z.leb_spec a b)
    | |- context [?a =? ?b] => destruct (Z.eqb_spec a b)
    | |- context [?a >? ?b] => rewrite (Z.gtb_ltb a b)
    end.

(** ** getNextPhase *)

(** C5.  [getNextPhase] is a total function on the five phases that follows
    the transition table: Prep goes to Work; Work goes to Rest while
    [currentSet < sets], to Cooldown on the last set when [cooldown > 0] and
    to Complete on the last set when [cooldown = 0]; Rest goes to Work;
    Cooldown goes to Complete; Complete stays Complete. *)
Theorem getNextPhase_table (s : TimerState) :
  (phase s = Prep -> getNextPhase s = Work) /\
  (phase s = Work -> currentSet s < sets (config s) ->
   getNextPhase s = Rest) /\
  (phase s = Work -> currentSet s = sets (config s) ->
   cooldown (config s) > 0 -> getNextPhase s = Cooldown) /\
  (phase s = Work -> currentSet s = sets (config s) ->
   cooldown (config s) = 0 -> getNextPhase s = Complete) /\
  (phase s = Rest -> getNextPhase s = Work) /\
  (phase s = Cooldown -> getNextPhase s = Complete) /\
  (phase s = Complete -> getNextPhase s = Complete).
Proof.
  unfold getNextPhase.
  repeat split; intros Hp; rewrite Hp; try reflexivity; intros; split_tests;
    try reflexivity; lia.
Qed.

Lemma getNextPhase_table_witness :
  let c := mkConfig 10 2 20 10 60 in
  let c0 := mkConfig 10 2 20 10 0 in
  getNextPhase (mkState Prep 1 10 10 false c) = Work /\
  getNextPhase (mkState Work 1 20 20 false c) = Rest /\
  getNextPhase (mkState Work 2 20 20 false c) = Cooldown /\
  getNextPhase (mkState Work 2 20 20 false c0) = Complete /\
  getNextPhase (mkState Rest 1 10 10 false c) = Work /\
  getNextPhase (mkState Cooldown 2 60 60 false c) = Complete /\
  getNextPhase (mkState Complete 2 0 60 true c) = Complete.
Proof.
  intros c c0.
  pose proof (getNextPhase_table (mkState Prep 1 10 10 false c)) as T1.
  pose proof (getNextPhase_table (mkState Work 1 20 20 false c)) as T2.
  pose proof (getNextPhase_table (mkState Work 2 20 20 false c)) as T3.
  pose proof (getNextPhase_table (mkState Work 2 20 20 false c0)) as T4.
  pose proof (getNextPhase_table (mkState Rest 1 10 10 false c)) as T5.
  pose proof (getNextPhase_table (mkState Cooldown 2 60 60 false c)) as T6.
  pose proof (getNextPhase_table (mkState Complete 2 0 60 true c)) as T7.
  refine (conj _ (conj _ (conj _ (conj _ (conj _ (conj _ _)))))).
  - destruct T1 as (H & _). apply H. reflexivity.
  - destruct T2 as (_ & H & _). apply H; [reflexivity | simpl; lia].
  - destruct T3 as (_ & _ & H & _).
    apply H; [reflexivity | reflexivity | simpl; lia].
  - destruct T4 as (_ & _ & _ & H & _). apply H; reflexivity.
  - destruct T5 as (_ & _ & _ & _ & H & _). apply H. reflexivity.
  - destruct T6 as (_ & _ & _ & _ & _ & H & _). apply H. reflexivity.
  - destruct T7 as (_ & _ & _ & _ & _ & _ & H). apply H. reflexivity.
Defined.

(** ** The interval *)

Lemma ticks_paused (n : nat) (s : TimerState) :
  isPaused s = true -> ticks n s = s.
Proof.
  intros Hp. induction n as [|n IH]; simpl; [reflexivity|].
  unfold tick, interval_cleared. rewrite Hp. simpl. exact IH.
Qed.

Lemma ticks_add (m n : nat) (s : TimerState) :
  ticks (m + n) s = ticks n (ticks m s).
Proof.
  revert s. induction m as [|m IH]; intros s; simpl; [reflexivity|].
  apply IH.
Qed.

(** The updater alone carries no guard: on a paused state it still counts
    down, so the pause is the work of the interval effect. *)
Example tick_update_ignores_pause :
  tick_update (mkState Work 1 5 20 true (mkConfig 10 2 20 10 0))
  = mkState Work 1 4 20 true (mkConfig 10 2 20 10 0).
Proof. reflexivity. Qed.

(** C2.  A tick leaves a paused or a completed state unchanged; hence
    pausing, letting any number of ticks go by and resuming gives back the
    state before the pause in every field other than [isPaused] (which is
    [false] after the resume). *)
Theorem tick_noop_paused_or_complete (s : TimerState) :
  (isPaused s = true \/ phase s = Complete -> tick s = s) /\
  (forall n : nat,
     let s' := handlePlay (ticks n (handlePause s)) in
     phase s' = phase s /\
     currentSet s' = currentSet s /\
     timeRemaining s' = timeRemaining s /\
     totalTime s' = totalTime s /\
     config s' = config s /\
     isPaused s' = false /\
     (isPaused s = false -> s' = s)).
Proof.
  split.
  - intros [Hp | Hc]; unfold tick, interval_cleared.
    + now rewrite Hp.
    + rewrite Hc. simpl. now rewrite orb_true_r.
  - intros n s'. subst s'.
    rewrite ticks_paused by reflexivity.
    repeat split. intros Hp. destruct s; simpl in *. now subst.
Qed.

Lemma tick_noop_paused_or_complete_witness :
  let s := mkState Complete 2 0 20 true (mkConfig 10 2 20 10 0) in
  tick s = s.
Proof.
  intros s.
  apply (proj1 (tick_noop_paused_or_complete s)).
  right. reflexivity.
Defined.

(** ** Resume *)

(** The handler by itself: [handlePlay] clears [isPaused] and keeps every
    other field; it returns its input exactly when the input is not
    paused. *)
Lemma handlePlay_clears_pause (s : TimerState) :
  handlePlay s
  = mkState (phase s) (currentSet s) (timeRemaining s) (totalTime s)
            false (config s) /\
  (handlePlay s = s <-> isPaused s = false).
Proof.
  split; [reflexivity|].
  destruct s as [p cs tr tt ip c]; unfold handlePlay; simpl. split.
  - intros H. now injection H.
  - intros ->. reflexivity.
Qed.

(** C4.  A resume leaves a state unchanged when its phase is Complete and
    when it is not paused; on every other state it sets [isPaused] to
    [false] and keeps every other field. *)
Theorem resume_unpauses_or_noop (s : TimerState) :
  (phase s = Complete -> resume s = s) /\
  (isPaused s = false -> resume s = s) /\
  (phase s <> Complete ->
   resume s
   = mkState (phase s) (currentSet s) (timeRemaining s) (totalTime s)
             false (config s)).
Proof.
  unfold resume, controlBar_rendered.
  destruct s as [p cs tr tt ip c]. simpl.
  split; [|split].
  - intros ->. reflexivity.
  - intros ->. now rewrite andb_false_r.
  - intros Hn. apply phase_eqb_neq in Hn. rewrite Hn. simpl.
    destruct ip; reflexivity.
Qed.

Lemma resume_unpauses_or_noop_witness :
  let done := mkState Complete 2 0 20 true (mkConfig 10 2 20 10 0) in
  let held := mkState Work 1 7 20 true (mkConfig 10 2 20 10 0) in
  resume done = done /\
  resume held = mkState Work 1 7 20 false (mkConfig 10 2 20 10 0).
Proof.
  intros done held. split.
  - destruct (resume_unpauses_or_noop done) as (H & _). apply H. reflexivity.
  - destruct (resume_unpauses_or_noop held) as (_ & _ & H).
    apply H. discriminate.
Defined.

(** ** Skip *)

Lemma tick_update_boundary (s : TimerState) :
  timeRemaining s <= 1 -> tick_update s = handleSkipSet s.
Proof.
  intros Ht. unfold tick_update, handleSkipSet.
  destruct (Z.leb_spec (timeRemaining s) 1); [|lia].
  destruct (phase_eqb (getNextPhase s) Complete) eqn:Hc; [reflexivity|].
  destruct (phase_eqb (getNextPhase s) Work && phase_eqb (phase s) Rest)
    eqn:Hw; [|reflexivity].
  apply andb_true_iff in Hw. destruct Hw as [Hw _].
  apply phase_eqb_eq in Hw. rewrite Hw. reflexivity.
Qed.

Lemma skip_ignores_time (s : TimerState) :
  handleSkipSet (at_boundary s) = handleSkipSet s.
Proof. destruct s. reflexivity. Qed.

(** C7.  A skip is the boundary branch of the tick taken at once: on every
    state [handleSkipSet] gives what the interval updater gives on the same
    state with [timeRemaining] set to 1, the Rest-to-Work increment and the
    completion included.  Hence on every unpaused state with
    [timeRemaining <= 1] a skip and a tick give equal states, and a skip
    from Rest goes to Work and adds exactly one to [currentSet]. *)
Theorem skip_matches_boundary_tick (s : TimerState) :
  handleSkipSet s = tick_update (at_boundary s) /\
  (interval_cleared s = false -> skip s = tick (at_boundary s)) /\
  (isPaused s = false -> timeRemaining s <= 1 ->
   tick_update s = handleSkipSet s /\
   (phase s <> Complete -> tick s = handleSkipSet s) /\
   skip s = tick s) /\
  (phase s = Rest ->
   skip s = handleSkipSet s /\
   phase (handleSkipSet s) = Work /\
   currentSet (handleSkipSet s) = currentSet s + 1 /\
   timeRemaining (handleSkipSet s) = work (config s)).
Proof.
  assert (Hgen : handleSkipSet s = tick_update (at_boundary s)).
  { rewrite tick_update_boundary by (simpl; lia). symmetry.
    apply skip_ignores_time. }
  split; [exact Hgen|]. split; [|split].
  - intros Hi. unfold skip, controlBar_rendered, tick.
    unfold interval_cleared in *. simpl.
    apply orb_false_iff in Hi. destruct Hi as [Hp Hc].
    rewrite Hp, Hc. simpl. exact Hgen.
  - intros Hp Ht.
    assert (Hb : tick_update s = handleSkipSet s)
      by now apply tick_update_boundary.
    split; [exact Hb|]. split.
    + intros Hc. unfold tick, interval_cleared. rewrite Hp.
      apply phase_eqb_neq in Hc. rewrite Hc. simpl. exact Hb.
    + unfold skip, controlBar_rendered, tick, interval_cleared. rewrite Hp.
      destruct (phase_eqb (phase s) Complete); simpl;
        [reflexivity | now symmetry].
  - intros Hr. unfold skip, controlBar_rendered, handleSkipSet, getNextPhase.
    rewrite Hr. simpl. repeat split.
Qed.

Lemma skip_matches_boundary_tick_witness :
  let s := mkState Rest 1 1 10 false (mkConfig 10 2 20 10 0) in
  let mid := mkState Work 1 13 20 false (mkConfig 10 2 20 10 0) in
  skip s = tick s /\ currentSet (skip s) = 2 /\
  skip mid = tick (at_boundary mid).
Proof.
  intros s mid.
  destruct (skip_matches_boundary_tick s) as (_ & _ & Hb & Hr).
  destruct (skip_matches_boundary_tick mid) as (_ & Hm & _).
  split; [|split].
  - apply Hb; [reflexivity | simpl; lia].
  - destruct (Hr eq_refl) as (Hs & _ & Hc & _). rewrite Hs. exact Hc.
  - apply Hm. reflexivity.
Defined.

(** C10.  On a completed state ([timeRemaining = 0], paused) a skip changes
    nothing. *)
Theorem skip_complete_identity (s : TimerState) :
  phase s = Complete -> timeRemaining s = 0 -> isPaused s = true ->
  handleSkipSet s = s.
Proof.
  destruct s as [p cs tr tt ip c]; simpl. intros -> -> ->. reflexivity.
Qed.

Lemma skip_complete_identity_witness :
  let s := mkState Complete 2 0 20 true (mkConfig 10 2 20 10 0) in
  handleSkipSet s = s.
Proof.
  intros s. apply (skip_complete_identity s); reflexivity.
Defined.

(** ** The worked scenario *)

(** C9, as the code has it.  For [{prep:10, sets:2, work:20, rest:10,
    cooldown:0}] the run starts in (Prep, 1, 10), is in (Work, 1, 20) after
    10 ticks, in (Rest, 1, 10) after 20 more, in (Work, 2, 20) after 10 more
    and in (Complete, 2, 0) after 20 more; completion takes 60 ticks in
    all. *)
Theorem scenario_trace :
  scenario_start = mkState Prep 1 10 10 false scenario_config /\
  ticks 10 scenario_start = mkState Work 1 20 20 false scenario_config /\
  ticks (10 + 20) scenario_start
  = mkState Rest 1 10 10 false scenario_config /\
  ticks (10 + 20 + 10) scenario_start
  = mkState Work 2 20 20 false scenario_config /\
  ticks (10 + 20 + 10 + 20) scenario_start
  = mkState Complete 2 0 20 true scenario_config /\
  completes_at 60 scenario_start = true /\
  total_ticks scenario_config = 60.
Proof.
  repeat split; vm_compute; reflexivity.
Qed.

(** C9, counterexample.  The run is complete after 60 ticks, and was not
    before: the number of ticks to completion is not 70. *)
Lemma scenario_not_70_ticks :
  completes_at 60 scenario_start = true /\
  completes_at 70 scenario_start = false /\
  total_ticks scenario_config <> 70.
Proof.
  repeat split; vm_compute; congruence.
Qed.

(** ** validateConfig and handleStart *)

Lemma bounds_check (x : option Z) :
  falsy x || lt_opt x MIN_TIME || gt_opt x MAX_TIME
  = negb (present_within 1 3600 x).
Proof.
  unfold MIN_TIME, MAX_TIME.
  destruct x as [v|]; simpl; [|reflexivity].
  split_tests; simpl; try reflexivity; lia.
Qed.

Lemma sets_check (x : option Z) :
  falsy x || lt_opt x 1 = negb (present_at_least 1 x).
Proof.
  destruct x as [v|]; simpl; [|reflexivity].
  split_tests; simpl; try reflexivity; lia.
Qed.

Lemma cooldown_check (v : Z) :
  (v <? 0) || (v >? MAX_TIME) = negb ((0 <=? v) && (v <=? 3600)).
Proof.
  unfold MAX_TIME. split_tests; simpl; try reflexivity; lia.
Qed.

Lemma present_within_some (lo hi : Z) (x : option Z) :
  present_within lo hi x = true -> exists v, x = Some v /\ lo <= v <= hi.
Proof.
  destruct x as [v|]; simpl; [|discriminate].
  intros H. apply andb_true_iff in H. destruct H as [H1 H2].
  exists v. split; [reflexivity|]. lia.
Qed.

Lemma present_at_least_some (lo : Z) (x : option Z) :
  present_at_least lo x = true -> exists v, x = Some v /\ lo <= v.
Proof.
  destruct x as [v|]; simpl; [|discriminate].
  intros H. exists v. split; [reflexivity|]. lia.
Qed.

Lemma validation_outcome_holds (c : PartialConfig) : validation_outcome c.
Proof.
  unfold validation_outcome, handleStart, validateConfig,
    spec_first_violation.
  rewrite !bounds_check, sets_check.
  destruct (present_within 1 3600 (prep_opt c)) eqn:Hp; simpl;
    [|eexists; repeat split; reflexivity].
  destruct (present_at_least 1 (sets_opt c)) eqn:Hs; simpl;
    [|eexists; repeat split; reflexivity].
  destruct (present_within 1 3600 (work_opt c)) eqn:Hw; simpl;
    [|eexists; repeat split; reflexivity].
  destruct (present_within 1 3600 (rest_opt c)) eqn:Hr; simpl;
    [|eexists; repeat split; reflexivity].
  apply present_within_some in Hp, Hw, Hr.
  apply present_at_least_some in Hs.
  destruct Hp as (p & Ep & _), Hs as (n & En & _), Hw as (w & Ew & _),
    Hr as (r & Er & _).
  unfold fullConfig_of. rewrite Ep, En, Ew, Er.
  destruct (cooldown_opt c) as [v|]; simpl.
  - rewrite cooldown_check.
    destruct ((0 <=? v) && (v <=? 3600)); simpl.
    + split; [reflexivity|]. exists p, n, w, r. repeat split.
    + eexists; repeat split; reflexivity.
  - split; [reflexivity|]. exists p, n, w, r. repeat split.
Qed.

(** C8.  [validateConfig] checks prep, sets, work, rest and cooldown in this
    order and returns the message of the first field out of bounds, which
    names that field and no other; when no field is out of bounds it returns
    no error and [handleStart] starts the timer on the configuration with
    every field filled in, an absent cooldown being 0.  For
    [{prep:0, sets:4, work:20, rest:10}] the error mentions "Prep". *)
Theorem validateConfig_first_violation :
  (forall c : PartialConfig, validation_outcome c) /\
  (exists e,
     validateConfig (mkPartial (Some 0) (Some 4) (Some 20) (Some 10) None)
     = Some e /\ includes e "Prep" = true).
Proof.
  split.
  - exact validation_outcome_holds.
  - eexists. split; reflexivity.
Qed.

(** ** Unpaused runs *)

(** Side conditions of [Running] once the phases are known. *)
Ltac running_side :=
  try reflexivity; try lia;
  try (intros; intuition (try discriminate; try congruence; lia)).

Section UnpausedRun.

Variable c : HIITConfig.
Hypothesis valid : ValidConfig c.

Lemma start_running : Running c (initializeTimerState c true).
Proof.
  destruct valid as [[Hp _] Hs _ _ _]. unfold MIN_TIME in *.
  constructor; simpl; try lia; try reflexivity; try discriminate.
  all: try (intros [H | H]; discriminate).
  all: try (intros _; split; [reflexivity | lia]).
Qed.

Lemma start_remaining :
  remaining (initializeTimerState c true) = total_ticks c.
Proof. unfold remaining, total_ticks. simpl. lia. Qed.

Lemma remaining_complete (s : TimerState) :
  phase s = Complete -> remaining s = 0.
Proof. unfold remaining. now intros ->. Qed.

Lemma remaining_positive (s : TimerState) :
  Running c s -> phase s <> Complete -> 1 <= remaining s.
Proof.
  intros [Hc Hlo Hhi Hrest Hlast Hlive] Hn.
  destruct (Hlive Hn) as [_ Ht].
  destruct valid as [_ _ [Hw _] [Hr _] [Hcd _]]. unfold MIN_TIME in *.
  unfold remaining. rewrite Hc.
  destruct (phase s); try congruence.
  - nia.
  - nia.
  - specialize (Hrest eq_refl). nia.
Qed.

(** One tick of a running, unfinished timer keeps it running and uses up
    exactly one of the remaining ticks. *)
Lemma tick_running (s : TimerState) :
  Running c s -> phase s <> Complete ->
  Running c (tick s) /\ remaining (tick s) = remaining s - 1.
Proof.
  intros [Hc Hlo Hhi Hrest Hlast Hlive] Hn.
  destruct (Hlive Hn) as [Hp Ht].
  destruct valid as [_ _ [Hw _] [Hr _] [Hcd _]]. unfold MIN_TIME in *.
  destruct s as [p cs tr tt ip cfg]. simpl in *. subst cfg ip.
  unfold tick, interval_cleared, tick_update, getNextPhase, remaining.
  simpl.
  assert (Hend : p = Cooldown -> cs = sets c) by auto.
  destruct p; simpl; try congruence; split_tests; simpl;
    try specialize (Hrest eq_refl); try specialize (Hend eq_refl);
    try (assert (cs = sets c) as -> by lia);
    (split; [constructor; simpl; running_side | lia]).
Qed.

Lemma ticks_running (n : nat) :
  forall s, Running c s -> Z.of_nat n <= remaining s ->
  Running c (ticks n s) /\ remaining (ticks n s) = remaining s - Z.of_nat n.
Proof.
  induction n as [|n IH]; intros s Hs Hn.
  - simpl ticks. split; [assumption | lia].
  - assert (Hne : phase s <> Complete).
    { intros Hc. apply remaining_complete in Hc. lia. }
    destruct (tick_running s Hs Hne) as [Hs' Hr'].
    destruct (IH (tick s) Hs') as [Hs'' Hr'']; [lia|].
    simpl ticks. split; [assumption | lia].
Qed.

Lemma complete_iff_no_remaining (s : TimerState) :
  Running c s -> (phase s = Complete <-> remaining s = 0).
Proof.
  intros Hs. split; [apply remaining_complete|].
  intros H0. destruct (phase s) eqn:Hp; try reflexivity;
    assert (1 <= remaining s)
      by (apply remaining_positive; [assumption | congruence]); lia.
Qed.

Lemma total_ticks_nonneg : 0 <= total_ticks c.
Proof.
  rewrite <- start_remaining.
  assert (1 <= remaining (initializeTimerState c true))
    by (apply remaining_positive; [apply start_running | discriminate]).
  lia.
Qed.

End UnpausedRun.

(** ** Valid configurations are those that pass validateConfig *)

Lemma validateConfig_valid (c : HIITConfig) :
  validateConfig (partial_of c) = None <-> ValidConfig c.
Proof.
  unfold validateConfig, partial_of, falsy, lt_opt, gt_opt, MIN_TIME,
    MAX_TIME. simpl.
  split.
  - intros Hv. constructor; unfold MIN_TIME, MAX_TIME;
      revert Hv; split_tests; simpl; intros Hv; try discriminate; lia.
  - intros [Hp Hs Hw Hr Hc]. unfold MIN_TIME, MAX_TIME in *.
    split_tests; simpl; try reflexivity; lia.
Qed.

Lemma handleStart_valid (p : PartialConfig) (s : TimerState) :
  handleStart p = inr s ->
  ValidConfig (config s) /\ s = initializeTimerState (config s) true.
Proof.
  intros H.
  pose proof (validation_outcome_holds p) as Hall.
  unfold validation_outcome in Hall.
  destruct (spec_first_violation p) eqn:Hv.
  - destruct Hall as (e & _ & He & _). congruence.
  - destruct Hall as (_ & a & n & w & r & Ea & En & Ew & Er & Hs).
    rewrite Hs in H. injection H as <-. simpl.
    split; [|reflexivity].
    unfold spec_first_violation in Hv.
    rewrite Ea, En, Ew, Er in Hv. simpl in Hv.
    constructor; unfold MIN_TIME, MAX_TIME; simpl;
      revert Hv; destruct (cooldown_opt p); simpl;
      split_tests; simpl; intros Hv; try discriminate; lia.
Qed.

(** ** Length of a workout *)

(** C1.  For a valid configuration, the run of ticks from a fresh start,
    never paused, is complete after exactly
    [prep + sets*work + (sets-1)*rest + cooldown] ticks and after no smaller
    number of ticks. *)
Theorem run_completes_exactly (c : HIITConfig) :
  ValidConfig c ->
  let start := initializeTimerState c true in
  let total := Z.to_nat (total_ticks c) in
  phase (ticks total start) = Complete /\
  (forall n : nat, (n < total)%nat -> phase (ticks n start) <> Complete).
Proof.
  intros Hv start total.
  pose proof (start_running c Hv) as Hrun.
  pose proof (start_remaining c) as Hrem.
  pose proof (total_ticks_nonneg c Hv) as Hnn.
  fold start in Hrun, Hrem.
  split.
  - destruct (ticks_running c Hv total start Hrun) as [Hr He];
      [unfold total; lia|].
    apply (complete_iff_no_remaining c Hv _ Hr). unfold total in *. lia.
  - intros n Hn Hc.
    destruct (ticks_running c Hv n start Hrun) as [Hr He];
      [unfold total in *; lia|].
    apply (complete_iff_no_remaining c Hv _ Hr) in Hc.
    unfold total in *. lia.
Qed.

Lemma run_completes_exactly_witness :
  phase (ticks 60 (initializeTimerState (mkConfig 10 2 20 10 0) true))
  = Complete /\
  phase (ticks 59 (initializeTimerState (mkConfig 10 2 20 10 0) true))
  <> Complete.
Proof.
  assert (Hv : ValidConfig (mkConfig 10 2 20 10 0))
    by (constructor; unfold MIN_TIME, MAX_TIME; simpl; lia).
  destruct (run_completes_exactly (mkConfig 10 2 20 10 0) Hv) as [Hc Hn].
  split.
  - exact Hc.
  - apply (Hn 59%nat). vm_compute. lia.
Defined.

(** ** The set counter *)

(** A tick or a skip changes [currentSet] only by adding one, and only on
    the way from Rest to Work. *)
Lemma tick_set_step (s : TimerState) :
  currentSet (tick s) = currentSet s \/
  (phase s = Rest /\ phase (tick s) = Work /\
   currentSet (tick s) = currentSet s + 1).
Proof.
  destruct s as [p cs tr tt ip cfg].
  unfold tick, interval_cleared, tick_update, getNextPhase. simpl.
  destruct ip; simpl; [now left|].
  destruct p; simpl; split_tests; simpl; auto.
Qed.

Lemma skip_set_step (s : TimerState) :
  currentSet (handleSkipSet s) = currentSet s \/
  (phase s = Rest /\ phase (handleSkipSet s) = Work /\
   currentSet (handleSkipSet s) = currentSet s + 1).
Proof.
  destruct s as [p cs tr tt ip cfg].
  unfold handleSkipSet, getNextPhase. simpl.
  destruct p; simpl; split_tests; simpl; auto.
Qed.

Lemma set_changes_add (m n : nat) (s : TimerState) :
  set_changes (m + n) s = (set_changes m s + set_changes n (ticks m s))%nat.
Proof.
  revert s. induction m as [|m IH]; intros s; simpl; [reflexivity|].
  rewrite IH. lia.
Qed.

Lemma set_changes_complete (n : nat) (s : TimerState) :
  phase s = Complete -> set_changes n s = 0%nat.
Proof.
  intros Hc.
  assert (Ht : tick s = s).
  { unfold tick, interval_cleared. rewrite Hc. simpl.
    now rewrite orb_true_r. }
  induction n as [|n IH]; simpl; [reflexivity|].
  rewrite Ht, Z.eqb_refl, IH. reflexivity.
Qed.

Lemma set_changes_running (c : HIITConfig) (Hv : ValidConfig c) (n : nat) :
  forall s, Running c s -> Z.of_nat n <= remaining s ->
  Z.of_nat (set_changes n s) = currentSet (ticks n s) - currentSet s.
Proof.
  induction n as [|n IH]; intros s Hs Hn; simpl; [lia|].
  assert (Hne : phase s <> Complete).
  { intros Hc. apply remaining_complete in Hc. lia. }
  destruct (tick_running c Hv s Hs Hne) as [Hs' Hr'].
  specialize (IH (tick s) Hs').
  destruct (tick_set_step s) as [He | (_ & _ & He)]; rewrite He in *.
  - rewrite Z.eqb_refl. simpl. apply IH. lia.
  - destruct (Z.eqb_spec (currentSet s + 1) (currentSet s)); [lia|].
    simpl negb. cbv iota. rewrite Nat2Z.inj_add, IH by lia.
    change (Z.of_nat 1) with 1. lia.
Qed.

Lemma apply_op_in_range (c : HIITConfig) (Hv : ValidConfig c)
      (o : Op) (s : TimerState) :
  SetInRange c s -> SetInRange c (apply_op o s).
Proof.
  intros [Hc Hlo Hhi Hrest]. destruct Hv as [_ Hsets _ _ _].
  destruct s as [p cs tr tt ip cfg]. simpl in *. subst cfg.
  destruct o; simpl.
  - unfold tick, interval_cleared, tick_update, getNextPhase. simpl.
    destruct ip; simpl; [constructor; simpl; auto|].
    destruct p; simpl; split_tests; simpl; constructor; simpl;
      try reflexivity; try lia; try discriminate; auto;
      specialize (Hrest eq_refl); lia.
  - constructor; simpl; auto.
  - constructor; simpl; auto.
  - unfold handleSkipSet, getNextPhase. simpl.
    destruct p; simpl; split_tests; simpl; constructor; simpl;
      try reflexivity; try lia; try discriminate; auto;
      specialize (Hrest eq_refl); lia.
  - unfold handleRestart, initializeTimerState. simpl.
    constructor; simpl; try lia; try discriminate. apply config_eta.
Qed.

Lemma run_in_range (c : HIITConfig) (Hv : ValidConfig c) (ops : list Op) :
  forall s, SetInRange c s -> SetInRange c (run ops s).
Proof.
  induction ops as [|o ops IH]; intros s Hs; simpl; [assumption|].
  apply IH. now apply apply_op_in_range.
Qed.

(** C6.  With a valid configuration [currentSet] never exceeds [sets] in a
    state reached from a fresh start by ticks, pauses, resumes, skips and
    restarts; over a full unpaused run it changes exactly [sets - 1] times;
    every change made by a tick or a skip adds exactly one and goes from
    Rest to Work, and leaving Prep never changes it. *)
Theorem currentSet_bounded_and_counted (c : HIITConfig) :
  ValidConfig c ->
  (forall (ops : list Op) (autoStart : bool),
     let s := run ops (initializeTimerState c autoStart) in
     config s = c /\ currentSet s <= sets (config s)) /\
  (forall n : nat,
     (Z.to_nat (total_ticks c) <= n)%nat ->
     Z.of_nat (set_changes n (initializeTimerState c true)) = sets c - 1) /\
  (forall s : TimerState,
     (currentSet (tick s) <> currentSet s ->
      phase s = Rest /\ phase (tick s) = Work /\
      currentSet (tick s) = currentSet s + 1) /\
     (currentSet (handleSkipSet s) <> currentSet s ->
      phase s = Rest /\ phase (handleSkipSet s) = Work /\
      currentSet (handleSkipSet s) = currentSet s + 1) /\
     (phase s = Prep ->
      currentSet (tick s) = currentSet s /\
      currentSet (handleSkipSet s) = currentSet s)).
Proof.
  intros Hv. split; [|split].
  - intros ops autoStart.
    assert (Hs : SetInRange c (initializeTimerState c autoStart)).
    { destruct Hv as [_ Hsets _ _ _].
      constructor; simpl; try reflexivity; try lia; discriminate. }
    apply (run_in_range c Hv ops) in Hs.
    destruct Hs as [Hcfg _ Hhi _]. simpl. split; [exact Hcfg|].
    rewrite Hcfg. exact Hhi.
  - intros n Hn.
    set (total := Z.to_nat (total_ticks c)) in *.
    set (start := initializeTimerState c true).
    pose proof (start_running c Hv) as Hrun.
    pose proof (start_remaining c) as Hrem.
    pose proof (total_ticks_nonneg c Hv) as Hnn.
    fold start in Hrun, Hrem.
    destruct (ticks_running c Hv total start Hrun) as [Hr He];
      [unfold total; lia|].
    assert (Hc : phase (ticks total start) = Complete).
    { apply (complete_iff_no_remaining c Hv _ Hr). unfold total in *. lia. }
    replace n with (total + (n - total))%nat by lia.
    rewrite set_changes_add, (set_changes_complete _ _ Hc), Nat.add_0_r.
    rewrite (set_changes_running c Hv total start Hrun)
      by (unfold total; lia).
    destruct Hr as [_ _ _ _ Hlast _]. rewrite Hlast by (now right).
    reflexivity.
  - intros s. split; [|split].
    + intros Hne. destruct (tick_set_step s) as [He | He];
        [contradiction | exact He].
    + intros Hne. destruct (skip_set_step s) as [He | He];
        [contradiction | exact He].
    + intros Hp. split.
      * destruct (tick_set_step s) as [He | (Hr & _)];
          [exact He | congruence].
      * destruct (skip_set_step s) as [He | (Hr & _)];
          [exact He | congruence].
Qed.

Lemma currentSet_bounded_and_counted_witness :
  currentSet (run [OTick; OSkip; OSkip; OPause; OSkip; OResume; OSkip]
                  (initializeTimerState (mkConfig 10 2 20 10 0) true)) <= 2 /\
  Z.of_nat (set_changes 60 (initializeTimerState (mkConfig 10 2 20 10 0) true))
  = 2 - 1.
Proof.
  assert (Hv : ValidConfig (mkConfig 10 2 20 10 0))
    by (constructor; unfold MIN_TIME, MAX_TIME; simpl; lia).
  destruct (currentSet_bounded_and_counted (mkConfig 10 2 20 10 0) Hv)
    as (Hbound & Hcount & _).
  split.
  - exact (proj2 (Hbound [OTick; OSkip; OSkip; OPause; OSkip; OResume; OSkip]
                         true)).
  - apply (Hcount 60%nat). vm_compute. lia.
Defined.

(** ** The completion invariant *)

Lemma apply_op_complete_time (o : Op) (s : TimerState) :
  (phase s = Complete -> timeRemaining s = 0) ->
  phase (apply_op o s) = Complete -> timeRemaining (apply_op o s) = 0.
Proof.
  destruct s as [p cs tr tt ip cfg]. simpl. intros Hinv.
  destruct o; simpl.
  - unfold tick, interval_cleared, tick_update, getNextPhase. simpl.
    destruct ip; simpl; [exact Hinv|].
    destruct p; simpl; split_tests; simpl; auto; discriminate.
  - exact Hinv.
  - exact Hinv.
  - unfold handleSkipSet, getNextPhase. simpl.
    destruct p; simpl; split_tests; simpl; auto; discriminate.
  - discriminate.
Qed.

Lemma apply_op_complete_paused (o : Op) (s : TimerState) :
  match o with
  | OResume => negb (phase_eqb (phase s) Complete)
  | _ => true
  end = true ->
  (phase s = Complete -> isPaused s = true) ->
  phase (apply_op o s) = Complete -> isPaused (apply_op o s) = true.
Proof.
  destruct s as [p cs tr tt ip cfg]. simpl. intros Hgate Hinv.
  destruct o; simpl.
  - unfold tick, interval_cleared, tick_update, getNextPhase. simpl.
    destruct ip; simpl; [reflexivity|].
    destruct p; simpl; split_tests; simpl; auto; discriminate.
  - reflexivity.
  - intros Hc. subst p. discriminate.
  - unfold handleSkipSet, getNextPhase. simpl.
    destruct p; simpl; split_tests; simpl; auto; discriminate.
  - discriminate.
Qed.

Lemma run_complete_time (ops : list Op) :
  forall s, (phase s = Complete -> timeRemaining s = 0) ->
  phase (run ops s) = Complete -> timeRemaining (run ops s) = 0.
Proof.
  induction ops as [|o ops IH]; intros s Hinv; simpl; [exact Hinv|].
  apply IH. now apply apply_op_complete_time.
Qed.

Lemma run_complete_paused (ops : list Op) :
  forall s, play_only_when_active ops s = true ->
  (phase s = Complete -> isPaused s = true) ->
  phase (run ops s) = Complete -> isPaused (run ops s) = true.
Proof.
  induction ops as [|o ops IH]; intros s Hgate Hinv; simpl; [exact Hinv|].
  simpl in Hgate. apply andb_true_iff in Hgate. destruct Hgate as [Ho Hg].
  apply IH; [exact Hg|]. now apply apply_op_complete_paused.
Qed.

(** The handlers by themselves: a Complete phase has [timeRemaining = 0]
    after any of them, and is paused provided [handlePlay] was not run on
    a completed timer. *)
Lemma complete_invariant (c : HIITConfig) (autoStart : bool)
      (ops : list Op) :
  let start := initializeTimerState c autoStart in
  (phase (run ops start) = Complete -> timeRemaining (run ops start) = 0) /\
  (play_only_when_active ops start = true ->
   phase (run ops start) = Complete -> isPaused (run ops start) = true).
Proof.
  intros start. split.
  - apply run_complete_time. discriminate.
  - intros Hgate. apply run_complete_paused; [exact Hgate | discriminate].
Qed.

(** An operation, as issued, is one handler run on a state that the
    control bar is rendered for, or nothing. *)
Lemma issue_cases (o : Op) (s : TimerState) :
  issue o s = s \/
  (issue o s = apply_op o s /\
   match o with
   | OResume => negb (phase_eqb (phase s) Complete)
   | _ => true
   end = true).
Proof.
  destruct o; simpl; unfold pause, resume, skip, restart,
    controlBar_rendered.
  - right. now split.
  - destruct (negb (phase_eqb (phase s) Complete) && negb (isPaused s));
      [right; now split | now left].
  - destruct (negb (phase_eqb (phase s) Complete)) eqn:Hr; simpl;
      [|now left].
    destruct (isPaused s); [right; now split | now left].
  - destruct (negb (phase_eqb (phase s) Complete));
      [right; now split | now left].
  - destruct (negb (phase_eqb (phase s) Complete));
      [right; now split | now left].
Qed.

Lemma issue_all_complete (ops : list Op) :
  forall s,
    (phase s = Complete -> timeRemaining s = 0 /\ isPaused s = true) ->
    phase (issue_all ops s) = Complete ->
    timeRemaining (issue_all ops s) = 0 /\ isPaused (issue_all ops s) = true.
Proof.
  induction ops as [|o ops IH]; intros s Hinv; simpl; [exact Hinv|].
  apply IH.
  destruct (issue_cases o s) as [-> | [-> Hgate]]; [exact Hinv|].
  intros Hc. split.
  - apply apply_op_complete_time; [|exact Hc]. intros H. now apply Hinv.
  - apply apply_op_complete_paused; [exact Hgate | | exact Hc].
    intros H. now apply Hinv.
Qed.

(** C3.  In every state reached from a fresh start by any sequence of
    ticks, pauses, resumes, skips and restarts, a Complete phase has
    [timeRemaining = 0] and [isPaused = true]. *)
Theorem complete_implies_stopped (c : HIITConfig) (autoStart : bool)
        (ops : list Op) :
  let s := issue_all ops (initializeTimerState c autoStart) in
  phase s = Complete -> timeRemaining s = 0 /\ isPaused s = true.
Proof.
  intros s. apply issue_all_complete. discriminate.
Qed.

Lemma complete_implies_stopped_witness :
  let s := issue_all [OTick; OSkip; OPause; OSkip; OResume; OSkip; OResume;
                      OTick; OPause; OResume]
                     (initializeTimerState (mkConfig 10 1 20 10 5) true) in
  phase s = Complete /\ timeRemaining s = 0 /\ isPaused s = true.
Proof.
  intros s.
  assert (Hc : phase s = Complete) by reflexivity.
  split; [exact Hc|].
  apply (complete_implies_stopped (mkConfig 10 1 20 10 5) true
           [OTick; OSkip; OPause; OSkip; OResume; OSkip; OResume;
            OTick; OPause; OResume]).
  exact Hc.
Defined.

(** The operations above are what the events of the component do to its
    timer state. *)
Lemma dispatch_issues (a : HIITTimer) (s : TimerState) :
  timerState a = Some s ->
  timerState (dispatch ClickPlayPause a)
  = Some (if isPaused s then resume s else pause s) /\
  timerState (dispatch ClickSkipSet a) = Some (skip s) /\
  timerState (dispatch ClickRestart a) = Some (restart s) /\
  timerState (dispatch IntervalFires a) = Some (tick s).
Proof.
  intros Hs. simpl. unfold isActive, pause, resume, skip, restart,
    controlBar_rendered, playPause_click.
  rewrite Hs.
  destruct (negb (phase_eqb (phase s) Complete)); simpl; rewrite Hs; simpl;
    destruct (isPaused s); repeat split.
Qed.


(** * Further properties of the component *)

(** ** Configuration and time under the operations *)

Lemma apply_op_config (o : Op) (s : TimerState) :
  config (apply_op o s) = config s.
Proof.
  destruct o; simpl.
  - unfold tick, tick_update.
    destruct (interval_cleared s); [reflexivity|].
    destruct (timeRemaining s <=? 1); [|reflexivity].
    destruct (phase_eqb (getNextPhase s) Complete); [reflexivity|].
    destruct (phase_eqb (getNextPhase s) Work && phase_eqb (phase s) Rest);
      reflexivity.
  - reflexivity.
  - reflexivity.
  - unfold handleSkipSet.
    destruct (phase_eqb (getNextPhase s) Complete); reflexivity.
  - apply config_eta.
Qed.

Lemma run_keeps_config (ops : list Op) :
  forall s, config (run ops s) = config s.
Proof.
  induction ops as [|o ops IH]; intros s; simpl; [reflexivity|].
  rewrite IH. apply apply_op_config.
Qed.

(** Side conditions of [TimeInRange] once the phases are known. *)
Ltac time_side :=
  try lia;
  try (intros Hne; first [lia | now contradiction Hne]).

Lemma apply_op_time (o : Op) (s : TimerState) :
  ValidConfig (config s) -> TimeInRange s -> TimeInRange (apply_op o s).
Proof.
  intros [[Hp _] _ [Hw _] [Hr _] [Hcd _]] [Hlo Hhi Htot Hlive].
  unfold MIN_TIME in *.
  destruct s as [p cs tr tt ip cfg]. simpl in *.
  destruct o; simpl.
  - unfold tick, interval_cleared, tick_update, getNextPhase. simpl.
    destruct ip; simpl; [constructor; simpl; auto|].
    destruct p; simpl; split_tests; simpl; constructor; simpl; time_side.
  - constructor; simpl; auto.
  - constructor; simpl; auto.
  - unfold handleSkipSet, getNextPhase. simpl.
    destruct p; simpl; split_tests; simpl; constructor; simpl; time_side.
  - constructor; simpl; time_side.
Qed.

Lemma start_time (c : HIITConfig) (autoStart : bool) :
  ValidConfig c -> TimeInRange (initializeTimerState c autoStart).
Proof.
  intros [[Hp _] _ _ _ _]. unfold MIN_TIME in *.
  constructor; simpl; time_side.
Qed.

Lemma run_time (ops : list Op) :
  forall s, ValidConfig (config s) -> TimeInRange s -> TimeInRange (run ops s).
Proof.
  induction ops as [|o ops IH]; intros s Hv Ht; simpl; [assumption|].
  apply IH; [rewrite apply_op_config; assumption|].
  now apply apply_op_time.
Qed.

(** X1.  With a valid configuration, in every state reached from a start by
    ticks, pauses, resumes, skips and restarts the time shown satisfies
    [0 <= timeRemaining <= totalTime] with [totalTime >= 1], and it is at
    least 1 while the phase is not Complete: the progress fraction
    [(totalTime - timeRemaining) / totalTime] is defined and within 0 and
    1. *)
Theorem time_within_total (c : HIITConfig) (autoStart : bool)
        (ops : list Op) :
  ValidConfig c ->
  let s := run ops (initializeTimerState c autoStart) in
  0 <= timeRemaining s <= totalTime s /\
  1 <= totalTime s /\
  (phase s <> Complete -> 1 <= timeRemaining s).
Proof.
  intros Hv s.
  assert (Ht : TimeInRange s).
  { apply run_time; [exact Hv | now apply start_time]. }
  destruct Ht as [Hlo Hhi Htot Hlive]. repeat split; assumption.
Qed.

Lemma time_within_total_witness :
  let s := run [OTick; OSkip; OTick; OPause; OSkip; OResume; OTick]
               (initializeTimerState (mkConfig 10 2 20 10 0) true) in
  0 <= timeRemaining s <= totalTime s /\ 1 <= totalTime s.
Proof.
  intros s.
  assert (Hv : ValidConfig (mkConfig 10 2 20 10 0))
    by (constructor; unfold MIN_TIME, MAX_TIME; simpl; lia).
  destruct (time_within_total (mkConfig 10 2 20 10 0) true
              [OTick; OSkip; OTick; OPause; OSkip; OResume; OTick] Hv)
    as (H1 & H2 & _).
  exact (conj H1 H2).
Defined.

(** X2.  A restart gives the state of a fresh, running start of the
    configuration the timer was started with, whatever ticks, pauses,
    resumes, skips and restarts came before and whether or not the timer
    had been started paused. *)
Theorem restart_is_fresh_start (c : HIITConfig) (autoStart : bool)
        (ops : list Op) :
  handleRestart (run ops (initializeTimerState c autoStart))
  = initializeTimerState c true.
Proof.
  unfold handleRestart. rewrite config_eta, run_keeps_config. reflexivity.
Qed.

(** ** Skipping through a workout *)

(** Reduces the projections and the phase tests, leaving arithmetic as it
    is. *)
Ltac cbn_state :=
  cbn [phase currentSet timeRemaining totalTime isPaused config
       phase_eqb getPhaseDuration andb orb negb].

Lemma skip_phases_left (c : HIITConfig) (s : TimerState) :
  SetInRange c s -> phase s <> Complete ->
  SetInRange c (handleSkipSet s) /\
  phases_left (handleSkipSet s) = phases_left s - 1.
Proof.
  intros [Hc Hlo Hhi Hrest] Hn.
  destruct s as [p cs tr tt ip cfg]. simpl in *. subst cfg.
  destruct p; try congruence; try specialize (Hrest eq_refl);
    unfold handleSkipSet, getNextPhase, phases_left; cbn_state;
    destruct (cooldown c >? 0) eqn:Hcd;
    destruct (Z.ltb_spec cs (sets c)); cbn_state; rewrite ?Hcd;
    (split; [constructor; cbn_state; try reflexivity; try lia;
             try discriminate; intros _; lia | lia]).
Qed.

Lemma phases_left_complete (c : HIITConfig) (s : TimerState) :
  SetInRange c s -> (phase s = Complete <-> phases_left s = 0).
Proof.
  intros [Hc Hlo Hhi Hrest]. unfold phases_left. rewrite Hc.
  destruct (phase s) eqn:Hp;
    try specialize (Hrest eq_refl);
    destruct (cooldown c >? 0); split; intros H;
    try reflexivity; try discriminate; lia.
Qed.

Lemma skips_phases_left (c : HIITConfig) (n : nat) :
  forall s, SetInRange c s -> Z.of_nat n <= phases_left s ->
  SetInRange c (skips n s) /\
  phases_left (skips n s) = phases_left s - Z.of_nat n.
Proof.
  induction n as [|n IH]; intros s Hs Hn.
  - simpl skips. split; [assumption | lia].
  - assert (Hne : phase s <> Complete).
    { intros Hc. apply (phases_left_complete c s Hs) in Hc. lia. }
    destruct (skip_phases_left c s Hs Hne) as [Hs' Hl'].
    destruct (IH (handleSkipSet s) Hs') as [Hs'' Hl'']; [lia|].
    simpl skips. split; [assumption | lia].
Qed.

(** X3.  From a start (paused or not) with [sets >= 1], pressing skip
    [2 * sets] times, and once more when there is a cooldown, ends the
    workout, and no smaller number of skips does: a skip leaves one phase,
    never a whole set. *)
Theorem skips_to_complete (c : HIITConfig) (autoStart : bool) :
  1 <= sets c ->
  let start := initializeTimerState c autoStart in
  let total := Z.to_nat (total_phases c) in
  phase (skips total start) = Complete /\
  (forall n : nat, (n < total)%nat -> phase (skips n start) <> Complete).
Proof.
  intros Hsets start total.
  assert (Hs : SetInRange c start)
    by (constructor; simpl; try reflexivity; try lia; discriminate).
  assert (Hl : phases_left start = total_phases c).
  { unfold phases_left, total_phases, start, initializeTimerState.
    cbn_state. destruct (cooldown c >? 0); lia. }
  assert (Hnn : 0 <= total_phases c).
  { unfold total_phases. destruct (cooldown c >? 0); lia. }
  split.
  - destruct (skips_phases_left c total start Hs) as [Hs' Hl'];
      [unfold total; lia|].
    apply (phases_left_complete c _ Hs'). unfold total in *. lia.
  - intros n Hn Hc.
    destruct (skips_phases_left c n start Hs) as [Hs' Hl'];
      [unfold total in *; lia|].
    apply (phases_left_complete c _ Hs') in Hc. unfold total in *. lia.
Qed.

Lemma skips_to_complete_witness :
  phase (skips 9 (initializeTimerState (mkConfig 10 4 20 10 60) true))
  = Complete /\
  phase (skips 8 (initializeTimerState (mkConfig 10 4 20 10 60) true))
  <> Complete.
Proof.
  assert (Hsets : 1 <= sets (mkConfig 10 4 20 10 60)) by (simpl; lia).
  destruct (skips_to_complete (mkConfig 10 4 20 10 60) true Hsets)
    as [Hc Hn].
  split.
  - exact Hc.
  - apply (Hn 8%nat). vm_compute. lia.
Defined.

(** ** Starting and pausing *)

(** X4.  [handleStart] installs a timer only when the configuration is
    within the bounds, and the timer is then a fresh, running start of that
    configuration; conversely every configuration within the bounds, entered
    in the form, starts exactly that timer. *)
Theorem handleStart_installs_valid :
  (forall (p : PartialConfig) (s : TimerState),
     handleStart p = inr s ->
     ValidConfig (config s) /\ s = initializeTimerState (config s) true) /\
  (forall c : HIITConfig,
     ValidConfig c ->
     handleStart (partial_of c) = inr (initializeTimerState c true)).
Proof.
  split.
  - exact handleStart_valid.
  - intros c Hv. unfold handleStart.
    apply validateConfig_valid in Hv. rewrite Hv.
    destruct c; reflexivity.
Qed.

Lemma handleStart_installs_valid_witness :
  handleStart (partial_of (mkConfig 10 8 20 10 60))
  = inr (initializeTimerState (mkConfig 10 8 20 10 60) true).
Proof.
  apply (proj2 handleStart_installs_valid).
  constructor; unfold MIN_TIME, MAX_TIME; simpl; lia.
Defined.

(** X5.  The middle button of the control bar flips [isPaused] and nothing
    else, so that pressing it twice gives back the state, in every phase. *)
Theorem playPause_click_involutive (s : TimerState) :
  isPaused (playPause_click s) = negb (isPaused s) /\
  phase (playPause_click s) = phase s /\
  currentSet (playPause_click s) = currentSet s /\
  timeRemaining (playPause_click s) = timeRemaining s /\
  totalTime (playPause_click s) = totalTime s /\
  config (playPause_click s) = config s /\
  playPause_click (playPause_click s) = s.
Proof.
  destruct s as [p cs tr tt [|] cfg]; unfold playPause_click; simpl;
    repeat split.
Qed.

(** ** The label of the next phase *)

Lemma append_assoc (a b c : string) :
  ((a ++ b) ++ c = a ++ (b ++ c))%string.
Proof.
  induction a as [|x a IH]; simpl; [reflexivity|]. now rewrite IH.
Qed.

Lemma nextLabel_of_next (s : TimerState) :
  nextLabel (phaseInfo_of s)
  = if phase_eqb (getNextPhase s) Complete then None
    else Some (label (getPhaseInfo (getNextPhase s) (currentSet s)
                        (sets (config s)) (config s))
               ++ " (" ++ formatTime (getPhaseDuration (getNextPhase s) s)
               ++ "s)")%string.
Proof.
  unfold phaseInfo_of, getNextPhase, getPhaseInfo.
  destruct (phase s); cbn_state; cbn [nextLabel label]; try reflexivity.
  destruct (currentSet s <? sets (config s)); cbn_state; cbn [label];
    [reflexivity|].
  destruct (cooldown (config s) >? 0); reflexivity.
Qed.

(** X6.  The "next up" label agrees with the phase sequencing: there is no
    label exactly when the next phase is Complete, and otherwise the label
    is the name of the phase that [getNextPhase] gives, followed by the
    formatted duration that this phase will run for. *)
Theorem nextLabel_announces_next (s : TimerState) :
  let next := getNextPhase s in
  (nextLabel (phaseInfo_of s) = None <-> next = Complete) /\
  (next <> Complete ->
   nextLabel (phaseInfo_of s)
   = Some (label (getPhaseInfo next (currentSet s) (sets (config s))
                    (config s))
           ++ " (" ++ formatTime (getPhaseDuration next s) ++ "s)")%string).
Proof.
  intros next. rewrite nextLabel_of_next. fold next.
  destruct (phase_eqb next Complete) eqn:He.
  - apply phase_eqb_eq in He. split; [tauto | congruence].
  - apply phase_eqb_neq in He. split; [|reflexivity].
    split; [discriminate | congruence].
Qed.

Lemma nextLabel_announces_next_witness :
  nextLabel (phaseInfo_of (mkState Work 4 20 20 false
                             (mkConfig 10 4 20 10 90)))
  = Some "Cooldown (1:30s)"%string.
Proof.
  apply (proj2 (nextLabel_announces_next
                  (mkState Work 4 20 20 false (mkConfig 10 4 20 10 90)))).
  discriminate.
Defined.

Lemma formatTime_below_minute (d : Z) :
  0 <= d < 60 -> formatTime d = (show d ++ "s")%string.
Proof.
  intros Hd. unfold formatTime.
  rewrite Z.div_small, Z.rem_small by lia. reflexivity.
Qed.

(** X7.  When the next phase lasts less than a minute the label carries the
    unit twice, as in "Work (20ss)": [formatTime] already ends in "s" and the
    label appends another. *)
Theorem nextLabel_doubles_unit (s : TimerState) :
  let next := getNextPhase s in
  next <> Complete ->
  0 <= getPhaseDuration next s < 60 ->
  nextLabel (phaseInfo_of s)
  = Some (label (getPhaseInfo next (currentSet s) (sets (config s))
                   (config s))
          ++ " (" ++ show (getPhaseDuration next s) ++ "ss)")%string.
Proof.
  intros next Hn Hd. rewrite nextLabel_of_next. fold next.
  apply phase_eqb_neq in Hn. rewrite Hn.
  rewrite formatTime_below_minute by exact Hd.
  f_equal. f_equal. f_equal. rewrite append_assoc. reflexivity.
Qed.

Lemma nextLabel_doubles_unit_witness :
  nextLabel (phaseInfo_of (mkState Prep 1 10 10 false
                             (mkConfig 10 4 20 10 60)))
  = Some "Work (20ss)"%string.
Proof.
  apply (nextLabel_doubles_unit
           (mkState Prep 1 10 10 false (mkConfig 10 4 20 10 60))).
  - discriminate.
  - simpl. lia.
Defined.

(** ** formatTime *)

Lemma show_inj (a b : Z) : show a = show b -> a = b.
Proof.
  unfold show. intros H.
  assert (Hnn : forall z, Z.to_int z <> Decimal.Pos Decimal.Nil /\
                          Z.to_int z <> Decimal.Neg Decimal.Nil).
  { intros [|p|p]; simpl; split; try discriminate;
      intros [= Hp]; now apply (Unsigned.to_uint_nonnil p). }
  apply (f_equal NilZero.int_of_string) in H.
  rewrite !NilZero.isi in H by apply Hnn.
  injection H as H.
  apply (f_equal Z.of_int) in H. now rewrite !DecimalZ.of_to in H.
Qed.

Lemma has_colon_app (u v : string) :
  has_colon (u ++ v) = has_colon u || has_colon v.
Proof.
  induction u as [|a u IH]; simpl; [reflexivity|].
  rewrite IH. apply orb_assoc.
Qed.

Lemma digits_no_colon (d : Decimal.uint) :
  has_colon (NilEmpty.string_of_uint d) = false.
Proof. induction d; simpl; auto. Qed.

Lemma show_no_colon (n : Z) : 0 <= n -> has_colon (show n) = false.
Proof.
  intros Hn. unfold show. destruct n as [|p|p]; [reflexivity| |lia].
  simpl. unfold NilZero.string_of_uint.
  destruct (Pos.to_uint p) eqn:Hd; try reflexivity;
    rewrite <- Hd; apply digits_no_colon.
Qed.

(** Two strings that agree after a first [:] agree before and after it. *)
Lemma split_at_colon (u1 u2 v1 v2 : string) :
  has_colon u1 = false -> has_colon u2 = false ->
  (u1 ++ ":" ++ v1 = u2 ++ ":" ++ v2)%string -> u1 = u2 /\ v1 = v2.
Proof.
  revert u2. induction u1 as [|a u1 IH]; intros [|b u2] H1 H2 H; simpl in *.
  - injection H as H. now split.
  - injection H as Hb H. subst b. discriminate.
  - injection H as Ha H. subst a. discriminate.
  - injection H as Hab H. subst b.
    apply orb_false_iff in H1, H2.
    destruct (IH u2) as [-> ->]; tauto.
Qed.

Lemma append_s_inj (u v : string) :
  (u ++ "s" = v ++ "s")%string -> u = v.
Proof.
  revert v. induction u as [|a u IH]; intros [|b v] H; simpl in *.
  - reflexivity.
  - injection H as _ H. destruct v; discriminate.
  - injection H as _ H. destruct u; discriminate.
  - injection H as -> H. f_equal. now apply IH.
Qed.

Lemma checked_below (f : nat -> bool) (k : nat) :
  forallb f (seq 0 k) = true -> forall n, (n < k)%nat -> f n = true.
Proof.
  intros H n Hn. rewrite forallb_forall in H. apply H.
  apply in_seq. lia.
Qed.

(** The seconds field has two characters, from which the seconds can be
    read back. *)
Lemma seconds_field_inj (x y : Z) :
  0 <= x < 60 -> 0 <= y < 60 -> seconds_field x = seconds_field y -> x = y.
Proof.
  intros Hx Hy H.
  pose (g := fun n : nat =>
    forallb (fun m : nat =>
      implb (String.eqb (seconds_field (Z.of_nat n))
                        (seconds_field (Z.of_nat m)))
            (Nat.eqb n m)) (seq 0 60)).
  assert (Hall : forallb g (seq 0 60) = true) by (vm_compute; reflexivity).
  pose proof (checked_below g 60 Hall (Z.to_nat x)) as Hg.
  unfold g in Hg.
  pose proof (checked_below _ 60 (Hg ltac:(lia)) (Z.to_nat y) ltac:(lia))
    as Hxy.
  rewrite !Z2Nat.id in Hxy by lia.
  rewrite H, String.eqb_refl in Hxy. simpl in Hxy.
  apply Nat.eqb_eq in Hxy. lia.
Qed.

(** X8.  Two different numbers of seconds (not negative) are never shown
    as the same text. *)
Theorem formatTime_injective (a b : Z) :
  0 <= a -> 0 <= b -> formatTime a = formatTime b -> a = b.
Proof.
  intros Ha Hb. unfold formatTime.
  rewrite !Z.rem_mod_nonneg by lia.
  pose proof (Z.div_mod a 60 ltac:(lia)) as Da.
  pose proof (Z.div_mod b 60 ltac:(lia)) as Db.
  pose proof (Z.mod_pos_bound a 60 ltac:(lia)) as Ma.
  pose proof (Z.mod_pos_bound b 60 ltac:(lia)) as Mb.
  pose proof (Z.div_pos a 60 Ha ltac:(lia)) as Qa.
  pose proof (Z.div_pos b 60 Hb ltac:(lia)) as Qb.
  rewrite !Z.gtb_ltb.
  destruct (Z.ltb_spec 0 (a / 60)) as [La|La];
    destruct (Z.ltb_spec 0 (b / 60)) as [Lb|Lb]; intros H.
  - apply split_at_colon in H; try (apply show_no_colon; lia).
    destruct H as [Hm Hs]. apply show_inj in Hm.
    apply (seconds_field_inj _ _ Ma Mb) in Hs. lia.
  - apply (f_equal has_colon) in H.
    rewrite !has_colon_app, !show_no_colon in H by lia. discriminate.
  - apply (f_equal has_colon) in H.
    rewrite !has_colon_app, !show_no_colon in H by lia. discriminate.
  - apply append_s_inj, show_inj in H. lia.
Qed.

Lemma formatTime_injective_witness :
  formatTime 65 = "1:05"%string /\ 65 = 60 + 5.
Proof.
  split; [reflexivity|].
  apply (formatTime_injective 65 (60 + 5)); [lia | lia | reflexivity].
Defined.

(** ** The component under its events *)

Lemma isActive_timer (a : HIITTimer) :
  isActive a = true ->
  exists s, timerState a = Some s /\ phase s <> Complete.
Proof.
  unfold isActive. destruct (timerState a) as [s|]; [|discriminate].
  intros H. exists s. split; [reflexivity|].
  apply phase_eqb_neq. now destruct (phase_eqb (phase s) Complete).
Qed.

(** What an event can do to the timer state: nothing, one operation (a
    resume only while the phase is not Complete), or a start. *)
Lemma dispatch_timer (e : Event) (a : HIITTimer) :
  timerState (dispatch e a) = timerState a \/
  (exists s o, timerState a = Some s /\
               timerState (dispatch e a) = Some (apply_op o s) /\
               (o = OResume -> phase s <> Complete) /\
               (o = ORestart -> isActive a = true)) \/
  (exists s, timerState (dispatch e a) = Some s /\
             handleStart (form a) = inr s /\ isActive a = false).
Proof.
  destruct e; simpl.
  - destruct (isActive a); now left.
  - destruct (isActive a); now left.
  - destruct (isActive a) eqn:Ha; simpl; [now left|].
    destruct (start_disabled (form a)); [now left|].
    unfold handleStart_click.
    destruct (handleStart (form a)) as [err|s] eqn:Hs; simpl; [now left|].
    right. right. exists s. auto.
  - destruct (isActive a) eqn:Ha; [|now left].
    destruct (isActive_timer a Ha) as (s & Hs & Hn).
    right. left. exists s, ORestart. simpl. rewrite Hs. simpl.
    repeat split; auto; try discriminate.
  - destruct (isActive a) eqn:Ha; [|now left].
    destruct (isActive_timer a Ha) as (s & Hs & Hn).
    right. left. simpl. rewrite Hs. simpl. unfold playPause_click.
    destruct (isPaused s).
    + exists s, OResume. repeat split; auto; try discriminate.
    + exists s, OPause. repeat split; auto; try discriminate.
  - destruct (isActive a) eqn:Ha; [|now left].
    destruct (isActive_timer a Ha) as (s & Hs & Hn).
    right. left. exists s, OSkip. simpl. rewrite Hs. simpl.
    repeat split; auto; try discriminate.
  - unfold isActive. destruct (timerState a) as [s|] eqn:Hs; simpl;
      [|now left].
    destruct (phase_eqb (phase s) Complete); simpl; now left.
  - destruct (timerState a) as [s|] eqn:Hs; simpl; [|now left].
    right. left. exists s, OTick. repeat split; auto; try discriminate.
Qed.

Lemma apply_op_wellformed (o : Op) (s : TimerState) :
  WellFormed s -> (o = OResume -> phase s <> Complete) ->
  WellFormed (apply_op o s).
Proof.
  intros [Hv Hset Htime Hdone] Hgate.
  constructor.
  - now rewrite apply_op_config.
  - rewrite apply_op_config. now apply apply_op_in_range.
  - now apply apply_op_time.
  - intros Hc. split.
    + apply apply_op_complete_time; [|exact Hc]. intros H. now apply Hdone.
    + apply apply_op_complete_paused; [| |exact Hc].
      * destruct o; try reflexivity.
        apply negb_true_iff, phase_eqb_neq. now apply Hgate.
      * intros H. now apply Hdone.
Qed.

Lemma start_wellformed (p : PartialConfig) (s : TimerState) :
  handleStart p = inr s -> WellFormed s.
Proof.
  intros H. apply handleStart_valid in H. destruct H as [Hv Hs].
  rewrite Hs. simpl. constructor; simpl.
  - exact Hv.
  - destruct Hv as [_ Hsets _ _ _].
    constructor; simpl; try reflexivity; try lia; discriminate.
  - now apply start_time.
  - discriminate.
Qed.

Lemma dispatch_wellformed (e : Event) (a : HIITTimer) :
  timer_wellformed a -> timer_wellformed (dispatch e a).
Proof.
  intros Hw s' Hs'.
  destruct (dispatch_timer e a)
    as [Hsame | [(s & o & Hs & Hd & Hgate & _) | (s & Hd & Hstart & _)]].
  - apply Hw. congruence.
  - rewrite Hd in Hs'. injection Hs' as <-.
    apply apply_op_wellformed; auto.
  - rewrite Hd in Hs'. injection Hs' as <-.
    now apply (start_wellformed (form a)).
Qed.

Lemma dispatch_all_wellformed (es : list Event) :
  forall a, timer_wellformed a -> timer_wellformed (dispatch_all es a).
Proof.
  induction es as [|e es IH]; intros a Hw; simpl; [exact Hw|].
  apply IH. now apply dispatch_wellformed.
Qed.

(** X9.  Whatever the user does and whenever the interval fires, the timer
    state of the component, when there is one, has a configuration within
    the validation bounds, [1 <= currentSet <= sets],
    [0 <= timeRemaining <= totalTime], at least one second left in every
    phase but Complete, and in phase Complete no time left and
    [isPaused = true]: the unguarded resume cannot reach a finished timer,
    because the control bar is not rendered then. *)
Theorem component_timer_wellformed (es : list Event) (s : TimerState) :
  timerState (dispatch_all es initial_timer) = Some s ->
  ValidConfig (config s) /\
  1 <= currentSet s <= sets (config s) /\
  0 <= timeRemaining s <= totalTime s /\
  (phase s <> Complete -> 1 <= timeRemaining s) /\
  (phase s = Complete -> timeRemaining s = 0 /\ isPaused s = true).
Proof.
  intros Hs.
  assert (Hw : WellFormed s).
  { apply (dispatch_all_wellformed es initial_timer); [|exact Hs].
    intros s0 H0. discriminate. }
  destruct Hw as [Hv [_ Hlo Hhi _] [Tlo Thi _ Tlive] Hdone].
  split; [exact Hv|]. split; [lia|]. split; [lia|].
  split; [exact Tlive | exact Hdone].
Qed.

Lemma component_timer_wellformed_witness :
  let es := [ClickStart; IntervalFires; ClickSkipSet; ClickPlayPause;
             ClickSkipSet; ClickPlayPause; ClickNewWorkout; ClickSkipSet] in
  exists s, timerState (dispatch_all es initial_timer) = Some s /\
            1 <= currentSet s <= sets (config s) /\
            0 <= timeRemaining s <= totalTime s.
Proof.
  intros es.
  eexists. split; [reflexivity|].
  pose proof (component_timer_wellformed es _ eq_refl) as (_ & H1 & H2 & _).
  exact (conj H1 H2).
Defined.

Lemma dispatch_error_current (e : Event) (a : HIITTimer) :
  error_current a -> error_current (dispatch e a).
Proof.
  intros He. destruct e; simpl;
    try (destruct (isActive a); [exact He | intros x Hx; discriminate]);
    try (destruct (isActive a); exact He);
    try exact He.
  - destruct (isActive a); simpl; [exact He|].
    destruct (start_disabled (form a)) eqn:Hd; [exact He|].
    unfold handleStart_click, handleStart.
    destruct (validateConfig (form a)) as [err|] eqn:Hv; intros x Hx;
      simpl in *; [|discriminate].
    injection Hx as <-. now split.
  - destruct (isActive a && _); [|exact He].
    exact He.
Qed.

Lemma dispatch_all_error_current (es : list Event) :
  forall a, error_current a -> error_current (dispatch_all es a).
Proof.
  induction es as [|e es IH]; intros a Ha; simpl; [exact Ha|].
  apply IH. now apply dispatch_error_current.
Qed.

(** X10.  An error on display is always the verdict of [validateConfig] on
    the form as it currently stands (every edit clears it); the four
    required fields are then filled in and not zero, since the start button
    is disabled otherwise; and the message names exactly one field, the
    first one out of bounds, which is the input marked invalid. *)
Theorem displayed_error_is_current (es : list Event) (e : string) :
  let a := dispatch_all es initial_timer in
  error a = Some e ->
  validateConfig (form a) = Some e /\
  start_disabled (form a) = false /\
  exists f, spec_first_violation (form a) = Some f /\ names_only e f = true.
Proof.
  intros a He.
  assert (Hinv : error_current a).
  { apply dispatch_all_error_current. intros x Hx. discriminate. }
  destruct (Hinv e He) as [Hv Hd].
  split; [exact Hv|]. split; [exact Hd|].
  pose proof (validation_outcome_holds (form a)) as Ho.
  unfold validation_outcome in Ho.
  destruct (spec_first_violation (form a)) as [f|].
  - destruct Ho as (e' & Hv' & _ & Hn).
    exists f. split; [reflexivity|]. congruence.
  - destruct Ho as [Hnone _]. congruence.
Qed.

Lemma displayed_error_is_current_witness :
  let a := dispatch_all [ChangeInput FWork (Some 5000); ClickStart]
                        initial_timer in
  error a = Some "Work must be between 1s and 3600s (60 minutes)"%string /\
  start_disabled (form a) = false.
Proof.
  intros a. split; [reflexivity|].
  apply (displayed_error_is_current
           [ChangeInput FWork (Some 5000); ClickStart]
           "Work must be between 1s and 3600s (60 minutes)").
  reflexivity.
Defined.

(** X11.  No event sets the timer state back to [null] once a timer has
    been started; in particular "New Workout", which sits in a screen shown
    only while the phase is not Complete under a test that the phase is
    Complete, is never rendered and changes nothing. *)
Theorem timer_never_cleared (e : Event) (a : HIITTimer) :
  dispatch ClickNewWorkout a = a /\
  (timerState a <> None -> timerState (dispatch e a) <> None).
Proof.
  split.
  - simpl. unfold isActive. destruct (timerState a) as [s|]; simpl;
      [|reflexivity].
    now destruct (phase_eqb (phase s) Complete).
  - intros Hsome.
    destruct (dispatch_timer e a)
      as [Hsame | [(s & o & _ & Hd & _) | (s & Hd & _)]];
      congruence.
Qed.

Lemma timer_never_cleared_witness :
  let a := dispatch_all [ClickStart; ClickSkipSet] initial_timer in
  timerState (dispatch ClickNewWorkout a) <> None.
Proof.
  intros a.
  apply (proj2 (timer_never_cleared ClickNewWorkout a)).
  discriminate.
Defined.

(** X12.  While a workout is on (the phase is not Complete) no event
    changes the form, the error or the configuration the timer runs with:
    the inputs, the preset and the start button are not rendered, and every
    operation of the control bar, a restart included, keeps the
    configuration. *)
Theorem active_workout_keeps_config (e : Event) (a : HIITTimer)
        (s s' : TimerState) :
  isActive a = true ->
  timerState a = Some s ->
  timerState (dispatch e a) = Some s' ->
  form (dispatch e a) = form a /\
  error (dispatch e a) = error a /\
  config s' = config s.
Proof.
  intros Ha Hs Hs'.
  split; [|split].
  - destruct e; simpl; rewrite ?Ha; simpl; try reflexivity.
    now destruct (match timerState a with Some _ => _ | None => _ end).
  - destruct e; simpl; rewrite ?Ha; simpl; try reflexivity.
    now destruct (match timerState a with Some _ => _ | None => _ end).
  - destruct (dispatch_timer e a)
      as [Hsame | [(s0 & o & Hs0 & Hd & _) | (s0 & _ & _ & Hn)]].
    + congruence.
    + assert (s0 = s) by congruence. subst s0.
      rewrite Hd in Hs'. injection Hs' as <-. apply apply_op_config.
    + congruence.
Qed.

Lemma active_workout_keeps_config_witness :
  let a := dispatch_all [ClickStart; IntervalFires] initial_timer in
  form (dispatch (ChangeInput FSets (Some 1)) a) = form a /\
  form (dispatch ClickRestart a) = form a.
Proof.
  intros a.
  split.
  - refine (proj1 (active_workout_keeps_config
                     (ChangeInput FSets (Some 1)) a _ _
                     eq_refl eq_refl eq_refl)).
  - refine (proj1 (active_workout_keeps_config ClickRestart a _ _
                     eq_refl eq_refl eq_refl)).
Defined.

(** ** The total of the current phase *)

Lemma apply_op_total (o : Op) (s : TimerState) :
  (phase s <> Complete -> totalTime s = getPhaseDuration (phase s) s) ->
  phase (apply_op o s) <> Complete ->
  totalTime (apply_op o s)
  = getPhaseDuration (phase (apply_op o s)) (apply_op o s).
Proof.
  destruct s as [p cs tr tt ip cfg]. simpl. intros Hinv.
  destruct o; simpl.
  - unfold tick, interval_cleared, tick_update, getNextPhase. simpl.
    destruct ip; simpl; [exact Hinv|].
    destruct p; simpl; split_tests; simpl; intros Hn;
      try reflexivity; try (now contradiction Hn);
      apply Hinv; discriminate.
  - exact Hinv.
  - exact Hinv.
  - unfold handleSkipSet, getNextPhase. simpl.
    destruct p; simpl; split_tests; simpl; intros Hn;
      try reflexivity; now contradiction Hn.
  - reflexivity.
Qed.

Lemma run_total (ops : list Op) :
  forall s,
    (phase s <> Complete -> totalTime s = getPhaseDuration (phase s) s) ->
    phase (run ops s) <> Complete ->
    totalTime (run ops s) = getPhaseDuration (phase (run ops s)) (run ops s).
Proof.
  induction ops as [|o ops IH]; intros s Hs; simpl; [exact Hs|].
  apply IH. now apply apply_op_total.
Qed.

(** X13.  In every state reached from a start by ticks, pauses, resumes,
    skips and restarts, and for any configuration, [totalTime] is the
    duration that the configuration the timer was started with gives to the
    phase the timer is in, as long as that phase is not Complete (where it
    keeps the total of the last phase run). *)
Theorem totalTime_is_phase_duration (c : HIITConfig) (autoStart : bool)
        (ops : list Op) :
  let s := run ops (initializeTimerState c autoStart) in
  phase s <> Complete ->
  totalTime s = getPhaseDuration (phase s) (initializeTimerState c autoStart).
Proof.
  intros s Hn.
  assert (Ht : totalTime s = getPhaseDuration (phase s) s).
  { apply run_total; [reflexivity | exact Hn]. }
  rewrite Ht. unfold getPhaseDuration, s.
  rewrite run_keeps_config. reflexivity.
Qed.

Lemma totalTime_is_phase_duration_witness :
  totalTime (run [OSkip; OTick; OSkip; OPause; OTick]
                 (initializeTimerState (mkConfig 10 2 20 15 0) true)) = 15.
Proof.
  apply (totalTime_is_phase_duration (mkConfig 10 2 20 15 0) true
           [OSkip; OTick; OSkip; OPause; OTick]).
  discriminate.
Defined.
